(** * initial_concepts.py: worker task, processes and process pools

    A shallow embedding of [src/initial_concepts.py].  The script's
    functions are sequences of effects (printing, sleeping, starting and
    joining processes, talking to a process pool), so they are written in a
    small state-and-exception monad over a [world] that records what each
    process printed and slept, the table of [multiprocessing.Process]
    objects and the state of the process pool.

    Time is not part of the world: a sleep is an event with a length, and
    the clock readings of the [__main__] block (which runs
    [multi_pool_map] and prints the elapsed time) are left out.  The
    order in which parallel work finishes is given by an oracle, so that
    a property proved for every oracle holds for every scheduling.

    Where the interpreter matters (the lengths [time.sleep] accepts, the
    limit on the digits of an [int] turned into [str]) the embedding
    follows CPython 3.11 on a 64-bit machine. *)

From Stdlib Require Import ZArith String List Bool Arith Lia Permutation.
From Stdlib Require Import PrimFloat DecimalString.
Import ListNotations.

Local Open Scope string_scope.
Local Open Scope list_scope.

(** ** Values *)

(** The values the script passes around as durations: the [int] literals
    ([1], [10], ...) and the [float] literal [1.5]. *)
Inductive pyval : Type :=
| PyInt (n : Z)
| PyFloat (f : float).

(** The exceptions that can show up in the script. *)
Inductive exn : Type :=
| ValueError (msg : string)
| OverflowError (msg : string)
| TypeError (msg : string)
| RuntimeError (msg : string)
| AssertionError (msg : string).

(** What evaluating a call gives: a value, a raised exception, or nothing
    at all when the call blocks for ever. *)
Inductive outcome (A : Type) : Type :=
| Returns (a : A)
| Raises (e : exn)
| Hangs.
Arguments Returns {A} a.
Arguments Raises {A} e.
Arguments Hangs {A}.

(** What a process does that the outside can see: a line printed on its
    standard output, a sleep of a given length. *)
Inductive event : Type :=
| EPrint (line : string)
| ESleep (seconds : pyval).

(** [str(n)] of a Python [int]: the decimal numeral, with a minus sign for
    negative numbers. *)
Definition int_str (n : Z) : string := NilZero.string_of_int (Z.to_int n).

(** The interpreter (CPython 3.11 and later) refuses to convert to [str]
    an [int] of more than [sys.int_max_str_digits] decimal digits, 4300
    unless changed. *)
Definition int_max_str_digits : nat := 4300.

(** [within_digits d n]: the natural number [n] has at most [d] decimal
    digits, that is, dividing it [d] times by ten leaves nothing. *)
Fixpoint within_digits (d : nat) (n : Z) : bool :=
  match d with
  | O => (n =? 0)%Z
  | S d' => within_digits d' (n / 10)%Z
  end.

(** The range of the interpreter's clock, a signed 64-bit count of
    nanoseconds. *)
Definition pytime_min : Z := (- 2 ^ 63)%Z.
Definition pytime_max : Z := (2 ^ 63 - 1)%Z.
Definition ns_per_second : Z := (10 ^ 9)%Z.

(** ** Processes and pools *)

Inductive pstatus : Type := Initial | Started | Joined.

(** A [multiprocessing.Process] object: the positional arguments for its
    target (the target is always [do_something] in this script), its life
    cycle, and what the child did once started. *)
Record process : Type := mkProcess {
  p_args : list pyval;
  p_status : pstatus;
  p_trace : list event;
  p_exitcode : option Z
}.

(** One unit of work handed to the pool: the argument, what the worker
    printed and slept while running it, and how the call ended. *)
Record task : Type := mkTask {
  task_arg : pyval;
  task_trace : list event;
  task_outcome : outcome string
}.

(** A future is named by its position in the pool's list of tasks. *)
Definition handle : Type := nat.

(** Modelled from the spec: the process pool (Python's
    [concurrent.futures.ProcessPoolExecutor], which is not part of src/),
    the collaborator of section 6: [create_pool], [submit],
    [join_or_result], [close].  [futures] holds every task submitted, by
    handle; [running] the handles whose work has not finished, oldest
    first; [finished] those whose work has finished, in completion order;
    [workers] the worker processes spawned so far. *)
Record pool : Type := mkPool {
  max_workers : nat;
  futures : list task;
  running : list handle;
  finished : list handle;
  workers : list pstatus;
  is_shutdown : bool
}.

(** The world a session runs in.  [trace] is what the calling process
    printed and slept; [oracle] resolves the scheduling choices that the
    operating system makes: each time the caller blocks until some running
    task finishes, the next number of the oracle picks which one. *)
Record world : Type := mkWorld {
  trace : list event;
  procs : list process;
  ppe : pool;
  cpu_count : nat;
  oracle : list nat
}.

Definition set_trace (t : list event) (w : world) : world :=
  mkWorld t (procs w) (ppe w) (cpu_count w) (oracle w).
Definition set_procs (ps : list process) (w : world) : world :=
  mkWorld (trace w) ps (ppe w) (cpu_count w) (oracle w).
Definition set_ppe (p : pool) (w : world) : world :=
  mkWorld (trace w) (procs w) p (cpu_count w) (oracle w).
Definition set_oracle (o : list nat) (w : world) : world :=
  mkWorld (trace w) (procs w) (ppe w) (cpu_count w) o.

Definition empty_pool (n : nat) : pool := mkPool n [] [] [] [] false.

(** A world in which nothing has happened yet, on a machine with [cpus]
    processors and scheduling choices [o]. *)
Definition init_world (cpus : nat) (o : list nat) : world :=
  mkWorld [] [] (empty_pool cpus) cpus o.

(** The lines a process printed, in order. *)
Fixpoint printed (t : list event) : list string :=
  match t with
  | [] => []
  | EPrint s :: t' => s :: printed t'
  | ESleep _ :: t' => printed t'
  end.

Definition stdout (w : world) : list string := printed (trace w).

(** ** The monad *)

(** A computation reads and updates the world and returns a value, raises
    or hangs; the world survives a raise, which is what lets a [with]
    block clean up. *)
Definition M (A : Type) : Type := world -> outcome A * world.

Definition ret {A : Type} (a : A) : M A := fun w => (Returns a, w).
Definition raise {A : Type} (e : exn) : M A := fun w => (Raises e, w).
Definition bind {A B : Type} (c : M A) (k : A -> M B) : M B :=
  fun w =>
    match c w with
    | (Returns a, w') => k a w'
    | (Raises e, w') => (Raises e, w')
    | (Hangs, w') => (Hangs, w')
    end.

Notation "x <- c ;; k" := (bind c (fun x => k))
  (at level 61, c at next level, right associativity).
Notation "c ;; k" := (bind c (fun _ => k))
  (at level 61, right associativity).

(** [for x in xs: body(x)] *)
Fixpoint for_each {A : Type} (xs : list A) (body : A -> M unit) : M unit :=
  match xs with
  | [] => ret tt
  | x :: xs' => body x ;; for_each xs' body
  end.

(** [[f(x) for x in xs]] *)
Fixpoint list_comp {A B : Type} (f : A -> M B) (xs : list A) : M (list B) :=
  match xs with
  | [] => ret []
  | x :: xs' => y <- f x ;; ys <- list_comp f xs' ;; ret (y :: ys)
  end.

(** [print(line)] in the calling process. *)
Definition print (line : string) : M unit :=
  fun w => (Returns tt, set_trace (trace w ++ [EPrint line]) w).

(** What [time.sleep(seconds)] raises instead of sleeping, if anything
    (CPython 3.11 on a 64-bit machine).  The length is first turned into
    nanoseconds: an [int] whose product with 10^9 leaves the clock's range
    and a [float] whose product with 1e9 does are refused with
    OverflowError, a NaN with ValueError.  (The product of a float is
    rounded to a whole number before the range test; at the ends of the
    range every float is whole, so the test on the product itself gives
    the same answer.)  Then a negative count is refused with ValueError;
    the float product 2^63, which passes the range test, turns into the
    least 64-bit integer and is refused the same way. *)
Definition sleep_error (seconds : pyval) : option exn :=
  match seconds with
  | PyInt n =>
      if (n <? Z.quot pytime_min ns_per_second)%Z
         || (Z.quot pytime_max ns_per_second <? n)%Z
      then Some (OverflowError "timestamp too large to convert to C _PyTime_t")
      else if (n <? 0)%Z
      then Some (ValueError "sleep length must be non-negative")
      else None
  | PyFloat f =>
      if PrimFloat.is_nan f
      then Some (ValueError "Invalid value NaN (not a number)")
      else
        let d := PrimFloat.mul f 1e9%float in
        if negb (PrimFloat.leb (-0x1p63)%float d && PrimFloat.leb d 0x1p63%float)
        then Some (OverflowError "timestamp too large to convert to C _PyTime_t")
        else if PrimFloat.ltb d 0%float || PrimFloat.eqb d 0x1p63%float
        then Some (ValueError "sleep length must be non-negative")
        else None
  end.

(** The lengths [time.sleep] accepts: for an [int], 0 to 9223372036
    seconds. *)
Definition valid_duration (s : pyval) : bool :=
  match sleep_error s with
  | None => true
  | Some _ => false
  end.

(** [time.sleep(seconds)]: the sleep is an event of the calling process;
    a length that is not acceptable raises before any sleeping. *)
Definition time_sleep (seconds : pyval) : M unit :=
  fun w =>
    match sleep_error seconds with
    | None => (Returns tt, set_trace (trace w ++ [ESleep seconds]) w)
    | Some e => (Raises e, w)
    end.

(** A stand-in for the interpreter's [repr] of floats, for running the
    script on examples: right on [1.5], the one float the script uses. *)
Definition repr_sample (f : float) : string :=
  if PrimFloat.eqb f 1.5%float then "1.5" else "?".

(** The workloads of the spec's scenario, and a batch whose second
    workload makes its worker raise. *)
Definition three_one_two : list pyval := [PyInt 3; PyInt 1; PyInt 2].

(** ** The script *)

Section Script.

(** [repr] of a Python [float] (the shortest decimal string that reads back
    as the same float) belongs to the interpreter, not to the script: the
    development holds for any such function. *)
Variable float_repr : float -> string.

(** The text of [str(v)], which is what an f-string field [{v}]
    interpolates. *)
Definition py_str (v : pyval) : string :=
  match v with
  | PyInt n => int_str n
  | PyFloat f => float_repr f
  end.

(** Whether the interpreter converts [v] to [str] at all: not an [int] of
    more than [int_max_str_digits] digits. *)
Definition str_allowed (v : pyval) : bool :=
  match v with
  | PyInt n => within_digits int_max_str_digits (Z.abs n)
  | PyFloat _ => true
  end.

(** Evaluating the f-string field [{v}]. *)
Definition format_value (v : pyval) : M string :=
  if str_allowed v
  then ret (py_str v)
  else raise (ValueError
    "Exceeds the limit (4300 digits) for integer string conversion; use sys.set_int_max_str_digits() to increase the limit").

(** Evaluating the f-string [f'{before}{v}{after}']. *)
Definition fstring (before : string) (v : pyval) (after : string) : M string :=
  text <- format_value v ;;
  ret (before ++ text ++ after)%string.

(** The default of [do_something]'s parameter. *)
Definition seconds_default : pyval := PyInt 1.

Definition do_something (seconds : pyval) : M string :=
  line <- fstring "Sleeping " seconds " seconds..." ;;
  print line ;;
  time_sleep seconds ;;
  message <- fstring "Done sleeping " seconds " seconds." ;;
  ret message.

(** Calling [do_something] with the tuple [args] unpacked: binding of the
    positional arguments, with the default for a missing one. *)
Definition call_do_something (args : list pyval) : M string :=
  match args with
  | [] => do_something seconds_default
  | [seconds] => do_something seconds
  | _ =>
      raise (TypeError
               ("do_something() takes from 0 to 1 positional arguments but "
                ++ int_str (Z.of_nat (length args)) ++ " were given")%string)
  end.

Definition standard_calls : M unit :=
  call_do_something [] ;;
  call_do_something [] ;;
  ret tt.

(** *** multiprocessing.Process *)

(** Running a computation in a child process: it starts from a world of
    its own, and the parent sees what it printed and slept and how it
    ended, never its return value. *)
Definition in_child {A : Type} (c : M A) (w : world) : list event * outcome A :=
  let (r, w') := c (init_world (cpu_count w) []) in (trace w', r).

Definition exit_code {A : Type} (r : outcome A) : Z :=
  match r with
  | Returns _ => 0%Z
  | _ => 1%Z
  end.

Fixpoint replace_nth {A : Type} (i : nat) (x : A) (l : list A) : list A :=
  match l, i with
  | [], _ => []
  | _ :: l', 0 => x :: l'
  | y :: l', S i' => y :: replace_nth i' x l'
  end.

(** [multiprocessing.Process(target=do_something, args=args)] *)
Definition Process (args : list pyval) : M nat :=
  fun w =>
    (Returns (length (procs w)),
     set_procs (procs w ++ [mkProcess args Initial [] None]) w).

(** [p.start()]: the child calls [do_something] on [args]; an exception in the
    child ends the child with exit code 1 and does not reach the parent. *)
Definition start (p : nat) : M unit :=
  fun w =>
    match nth_error (procs w) p with
    | None => (Raises (RuntimeError "not a process"), w)
    | Some pr =>
        match p_status pr with
        | Initial =>
            let (t, r) := in_child (call_do_something (p_args pr)) w in
            (Returns tt,
             set_procs (replace_nth p
                          (mkProcess (p_args pr) Started t (Some (exit_code r)))
                          (procs w)) w)
        | _ => (Raises (AssertionError "cannot start a process twice"), w)
        end
    end.

(** [p.join()] *)
Definition join (p : nat) : M unit :=
  fun w =>
    match nth_error (procs w) p with
    | None => (Raises (RuntimeError "not a process"), w)
    | Some pr =>
        match p_status pr with
        | Initial => (Raises (AssertionError "can only join a started process"), w)
        | _ =>
            (Returns tt,
             set_procs (replace_nth p
                          (mkProcess (p_args pr) Joined (p_trace pr) (p_exitcode pr))
                          (procs w)) w)
        end
    end.

Definition multi : M unit :=
  process_1 <- Process [] ;;
  process_2 <- Process [] ;;
  start process_1 ;;
  start process_2 ;;
  join process_1 ;;
  join process_2.

(** A [for] loop whose body updates a local variable. *)
Fixpoint for_fold {A S : Type} (xs : list A) (body : A -> S -> M S) (s : S) : M S :=
  match xs with
  | [] => ret s
  | x :: xs' => s' <- body x s ;; for_fold xs' body s'
  end.

(** The body of [multi_loop], as a function of the value bound to its
    local [seconds]. *)
Definition multi_loop_with (seconds : list pyval) : M unit :=
  processes <-
    for_fold (seq 0 10)
      (fun _ processes =>
         p <- Process [PyFloat 1.5%float] ;;
         start p ;;
         ret (processes ++ [p]))
      [] ;;
  for_each processes join.

Definition multi_loop : M unit :=
  multi_loop_with
    [PyInt 10; PyInt 9; PyInt 8; PyInt 7; PyInt 6;
     PyInt 5; PyInt 4; PyInt 3; PyInt 2; PyInt 1].

(** *** The process pool *)

(** Modelled from the spec: [create_pool] of section 6, which the script
    calls as [concurrent.futures.ProcessPoolExecutor()] (not part of
    src/): a pool with the default number of workers, one per processor
    and at least one. *)
Definition ProcessPoolExecutor : M unit :=
  fun w => (Returns tt, set_ppe (empty_pool (Nat.max 1 (cpu_count w))) w).

(** Modelled from the spec: [submit] of section 6, [ppe.submit(fn, arg)]
    in the script (not part of src/): the call [fn(arg)] is queued for a
    worker and a future comes back at once; whatever the call does,
    exceptions included, stays in the future.  A worker process is spawned
    while the pool has fewer than [max_workers]. *)
Definition submit (fn : pyval -> M string) (arg : pyval) : M handle :=
  fun w =>
    let p := ppe w in
    if is_shutdown p
    then (Raises (RuntimeError "cannot schedule new futures after shutdown"), w)
    else
      let (t, r) := in_child (fn arg) w in
      let h := length (futures p) in
      (Returns h,
       set_ppe (mkPool (max_workers p)
                  (futures p ++ [mkTask arg t r])
                  (running p ++ [h])
                  (finished p)
                  (if Nat.ltb (length (workers p)) (max_workers p)
                   then workers p ++ [Started] else workers p)
                  (is_shutdown p)) w).

Definition remove_nth {A : Type} (k : nat) (l : list A) : list A :=
  firstn k l ++ skipn (S k) l.

(** Modelled from the spec: the scheduling of section 5, where worker
    processes run in parallel and finish in an order of their own.  One
    step: some running task finishes, the one the oracle points at. *)
Definition complete_one (w : world) : world :=
  let p := ppe w in
  match running p with
  | [] => w
  | h0 :: _ =>
      let k := Nat.modulo (hd 0 (oracle w)) (length (running p)) in
      set_oracle (tl (oracle w))
        (set_ppe (mkPool (max_workers p) (futures p)
                    (remove_nth k (running p))
                    (finished p ++ [nth k (running p) h0])
                    (workers p) (is_shutdown p)) w)
  end.

Definition is_finished (h : handle) (w : world) : bool :=
  existsb (Nat.eqb h) (finished (ppe w)).

(** Blocking until the work of future [h] has finished: other tasks may
    finish first. *)
Fixpoint wait_loop (fuel : nat) (h : handle) (w : world) : world :=
  match fuel with
  | 0 => w
  | S fuel' => if is_finished h w then w else wait_loop fuel' h (complete_one w)
  end.

Definition wait_for (h : handle) (w : world) : world :=
  wait_loop (length (running (ppe w))) h w.

(** Modelled from the spec: [join_or_result] of section 6,
    [future.result()] in the script (not part of src/): it blocks until
    the work has finished, then returns what the call returned or raises
    what it raised.  On a future whose work never finishes it blocks for
    ever. *)
Definition result (h : handle) : M string :=
  fun w =>
    let w' := wait_for h w in
    if is_finished h w'
    then
      match nth_error (futures (ppe w')) h with
      | Some t => (task_outcome t, w')
      | None => (Hangs, w')
      end
    else (Hangs, w').

(** Modelled from the spec: [collect_as_completed] of section 4.1,
    [concurrent.futures.as_completed] in the script (not part of src/).
    The next future of [todo] that it hands out is the one whose work
    finished first; when none has finished yet, it blocks until some
    running task finishes and looks again. *)
Fixpoint next_completed (fuel : nat) (todo : list handle) (w : world)
  : option handle * world :=
  match find (fun h => existsb (Nat.eqb h) todo) (finished (ppe w)) with
  | Some h => (Some h, w)
  | None =>
      match fuel with
      | 0 => (None, w)
      | S fuel' => next_completed fuel' todo (complete_one w)
      end
  end.

Fixpoint as_completed_loop (n : nat) (todo : list handle) (body : handle -> M unit)
  : M unit :=
  match todo, n with
  | [], _ => ret tt
  | _, 0 => ret tt
  | _, S n' =>
      fun w =>
        match next_completed (length (running (ppe w))) todo w with
        | (Some h, w') =>
            (body h ;; as_completed_loop n' (remove Nat.eq_dec h todo) body) w'
        | (None, w') => (Hangs, w')
        end
  end.

(** [for f in concurrent.futures.as_completed(fs): body(f)] *)
Definition for_as_completed (fs : list handle) (body : handle -> M unit) : M unit :=
  as_completed_loop (length fs) fs body.

(** Modelled from the spec: [collect_in_order] of section 4.1,
    [ppe.map(fn, xs)] in the script (not part of src/): every call is
    submitted at once; the iterator that comes back gives the results in
    the order of [xs], blocking on each in turn.  (That an iteration cut
    short cancels the calls that no worker has picked up yet is not
    modelled.) *)
Definition executor_map (fn : pyval -> M string) (xs : list pyval) : M (list handle) :=
  list_comp (submit fn) xs.

(** [for r in it: body(r)] for the iterator of [executor_map]. *)
Definition for_results (it : list handle) (body : string -> M unit) : M unit :=
  for_each it (fun h => r <- result h ;; body r).

Fixpoint drain (fuel : nat) (w : world) : world :=
  match fuel with
  | 0 => w
  | S fuel' => drain fuel' (complete_one w)
  end.

(** Modelled from the spec: [close] of section 6 and [shutdown] of
    section 4.1, [ppe.shutdown(wait=True)] in Python (not part of src/):
    no more submissions; the work already submitted runs to its end, then
    every worker process is joined. *)
Definition shutdown : M unit :=
  fun w =>
    let w' := drain (length (running (ppe w))) w in
    let p := ppe w' in
    (Returns tt,
     set_ppe (mkPool (max_workers p) (futures p) (running p) (finished p)
                (map (fun _ => Joined) (workers p)) true) w').

(** Modelled from the spec: the scoped acquisition and release of
    section 4.1, [with concurrent.futures.ProcessPoolExecutor() as ppe:
    body] in the script: the pool is shut down when the block is left,
    whether [body] returned or raised, and an exception of [body] goes on
    to the caller.  A [body] that hangs never leaves the block. *)
Definition with_executor {A : Type} (body : M A) : M A :=
  fun w =>
    let (_, w0) := ProcessPoolExecutor w in
    match body w0 with
    | (Hangs, w1) => (Hangs, w1)
    | (r, w1) => let (_, w2) := shutdown w1 in (r, w2)
    end.

Definition multi_pool : M unit :=
  with_executor (
    process_1 <- submit do_something (PyFloat 1.5%float) ;;
    process_2 <- submit do_something (PyFloat 1.5%float) ;;
    r1 <- result process_1 ;;
    print r1 ;;
    r2 <- result process_2 ;;
    print r2).

(** The body of [multi_pool_loop], as a function of its [second_list]. *)
Definition multi_pool_loop_on (second_list : list pyval) : M unit :=
  with_executor (
    processes <- list_comp (submit do_something) second_list ;;
    for_as_completed processes (fun process =>
      r <- result process ;;
      print r)).

(** The body of [multi_pool_map], as a function of its [second_list]. *)
Definition multi_pool_map_on (second_list : list pyval) : M unit :=
  with_executor (
    futures <- executor_map do_something second_list ;;
    for_results futures (fun future =>
      print future)).

Definition ten_to_one : list pyval :=
  [PyInt 10; PyInt 9; PyInt 8; PyInt 7; PyInt 6;
   PyInt 5; PyInt 4; PyInt 3; PyInt 2; PyInt 1].

Definition multi_pool_loop : M unit := multi_pool_loop_on ten_to_one.

Definition multi_pool_map : M unit := multi_pool_map_on ten_to_one.

(** ** Vocabulary of the properties *)

(** The result a worker sends back for a duration it accepts. *)
Definition done_message (seconds : pyval) : string :=
  ("Done sleeping " ++ py_str seconds ++ " seconds.")%string.

(** The task the pool records for [do_something(seconds)]. *)
Definition task_of (seconds : pyval) : task :=
  let (t, r) := in_child (do_something seconds) (init_world 0 []) in
  mkTask seconds t r.

(** Every future of the pool is either running or finished, once, and no
    task is one that would hang its worker. *)
Definition pool_wf (p : pool) : Prop :=
  Permutation (running p ++ finished p) (seq 0 (length (futures p))) /\
  Forall (fun t => task_outcome t <> Hangs) (futures p).

(** [p'] is [p] after some scheduling steps: the same futures, some of
    them moved from running to finished. *)
Definition evolves (p p' : pool) : Prop :=
  futures p' = futures p /\
  Permutation (running p' ++ finished p') (running p ++ finished p) /\
  (forall h, In h (finished p) -> In h (finished p')).

(** What a caller gets who retrieves the results of the futures [hs] in
    this order and prints each: the lines printed, and how the loop ends
    (the first failure ends it). *)
Fixpoint collect (fs : list task) (hs : list handle) : list string * outcome unit :=
  match hs with
  | [] => ([], Returns tt)
  | h :: hs' =>
      match nth_error fs h with
      | Some t =>
          match task_outcome t with
          | Returns s => let (out, r) := collect fs hs' in (s :: out, r)
          | Raises e => ([], Raises e)
          | Hangs => ([], Hangs)
          end
      | None => ([], Hangs)
      end
  end.


(** What the child of [do_something(seconds)] prints and sleeps when the
    duration is accepted. *)
Definition worker_trace (seconds : pyval) : list event :=
  [EPrint ("Sleeping " ++ py_str seconds ++ " seconds...")%string; ESleep seconds].

(** How a loop body that retrieves the result of one future and prints it
    ends, and what it prints. *)
Definition step_outcome (t : task) : outcome unit :=
  match task_outcome t with
  | Returns _ => Returns tt
  | Raises e => Raises e
  | Hangs => Hangs
  end.

Definition step_lines (t : task) : list event :=
  match task_outcome t with
  | Returns s => [EPrint s]
  | _ => []
  end.

Definition retrieves (body : handle -> M unit) : Prop :=
  forall h t w,
    pool_wf (ppe w) ->
    nth_error (futures (ppe w)) h = Some t ->
    exists w',
      body h w = (step_outcome t, w') /\
      trace w' = trace w ++ step_lines t /\
      evolves (ppe w) (ppe w').

(** A pool that has been closed for good: shut down, no work left
    running, every piece of submitted work finished, every worker process
    joined. *)
Definition pool_closed (p : pool) : Prop :=
  is_shutdown p = true /\
  running p = [] /\
  Permutation (finished p) (seq 0 (length (futures p))) /\
  Forall (fun s => s = Joined) (workers p).

(** ** Properties *)

(** *** The worker task *)

Lemma within_digits_bound (d : nat) (n : Z) :
  (0 <= n < 10 ^ Z.of_nat d)%Z -> within_digits d n = true.
Proof.
  revert n. induction d as [| d IH]; intros n Hn.
  - simpl in *. apply Z.eqb_eq. lia.
  - cbn [within_digits]. apply IH.
    rewrite Nat2Z.inj_succ, Z.pow_succ_r in Hn by lia. split.
    + apply Z.div_pos; lia.
    + apply Z.div_lt_upper_bound; lia.
Qed.

Lemma within_digits_S (d : nat) (n : Z) :
  within_digits d n = true -> within_digits (S d) n = true.
Proof.
  revert n. induction d as [| d IH]; intros n H.
  - simpl in *. apply Z.eqb_eq in H. subst n. reflexivity.
  - cbn [within_digits] in *. apply IH in H. exact H.
Qed.

Lemma within_digits_more (k d : nat) (n : Z) :
  within_digits d n = true -> within_digits (k + d) n = true.
Proof.
  intros H. induction k as [| k IH]; [exact H |].
  apply within_digits_S in IH. exact IH.
Qed.

(** The ints [time.sleep] accepts: from 0 to 9223372036. *)
Lemma valid_int_range (n : Z) :
  valid_duration (PyInt n) = true <-> (0 <= n <= 9223372036)%Z.
Proof.
  unfold valid_duration, sleep_error.
  change (Z.quot pytime_min ns_per_second) with (-9223372036)%Z.
  change (Z.quot pytime_max ns_per_second) with 9223372036%Z.
  destruct (n <? -9223372036)%Z eqn:H1;
    destruct (9223372036 <? n)%Z eqn:H2;
    destruct (n <? 0)%Z eqn:H3; cbn [orb];
    rewrite ?Z.ltb_lt, ?Z.ltb_ge in *;
    split; intros H; try discriminate; try reflexivity; lia.
Qed.

(** A duration that [time.sleep] accepts is one that [str] converts. *)
Lemma valid_str_allowed (s : pyval) :
  valid_duration s = true -> str_allowed s = true.
Proof.
  destruct s as [n | f]; [| reflexivity].
  intros Hv. apply valid_int_range in Hv. unfold str_allowed.
  change int_max_str_digits with (4290 + 10).
  apply within_digits_more, within_digits_bound.
  change (10 ^ Z.of_nat 10)%Z with 10000000000%Z. lia.
Qed.

Lemma within_digits_exceeds (d : nat) (n : Z) :
  (10 ^ Z.of_nat d <= n)%Z -> within_digits d n = false.
Proof.
  revert n. induction d as [| d IH]; intros n Hn.
  - simpl in *. apply Z.eqb_neq. lia.
  - cbn [within_digits]. apply IH.
    rewrite Nat2Z.inj_succ, Z.pow_succ_r in Hn by lia.
    apply Z.div_le_lower_bound; lia.
Qed.

(** An [int] of more than 4300 digits makes the f-string of the first
    line raise: nothing is printed and the world is as it was. *)
Lemma do_something_too_many_digits (n : Z) (w : world) :
  (10 ^ 4300 <= Z.abs n)%Z ->
  exists e, do_something (PyInt n) w = (Raises e, w).
Proof.
  intros Hn. unfold do_something, fstring, format_value, str_allowed.
  rewrite within_digits_exceeds; [eexists; reflexivity |].
  change (Z.of_nat int_max_str_digits) with 4300%Z. exact Hn.
Qed.

Lemma do_something_valid (s : pyval) (w : world) :
  valid_duration s = true ->
  do_something s w =
    (Returns (done_message s),
     set_trace (trace w
                ++ [EPrint ("Sleeping " ++ py_str s ++ " seconds...")%string;
                    ESleep s]) w).
Proof.
  intros Hv.
  unfold do_something, fstring, format_value, bind, print, time_sleep, ret,
    done_message.
  rewrite (valid_str_allowed s Hv).
  unfold valid_duration in Hv. destruct (sleep_error s); [discriminate |].
  unfold set_trace. simpl.
  rewrite <- app_assoc. reflexivity.
Qed.

Lemma time_sleep_invalid (s : pyval) (w : world) :
  valid_duration s = false ->
  exists e, forall w', time_sleep s w' = (Raises e, w').
Proof.
  intros Hv. unfold time_sleep. unfold valid_duration in Hv.
  destruct (sleep_error s) as [e |]; [| discriminate].
  exists e. reflexivity.
Qed.

(** A refused duration makes [do_something] raise, the same exception in
    every world. *)
Lemma do_something_invalid (s : pyval) :
  valid_duration s = false ->
  exists e, forall w, fst (do_something s w) = Raises e.
Proof.
  intros Hv. unfold do_something, fstring, format_value.
  destruct (str_allowed s).
  - destruct (time_sleep_invalid s (init_world 0 []) Hv) as [e He].
    exists e. intros w. unfold bind, ret, print. rewrite He. reflexivity.
  - eexists. intros w. reflexivity.
Qed.

Lemma do_something_never_hangs (s : pyval) (w : world) :
  fst (do_something s w) <> Hangs.
Proof.
  destruct (valid_duration s) eqn:Hv.
  - rewrite do_something_valid by assumption. discriminate.
  - destruct (do_something_invalid s Hv) as [e He].
    rewrite He. discriminate.
Qed.

(** What [do_something] does in a world depends on the world only for the
    events it is added to. *)
Lemma do_something_trace_only (s : pyval) (w1 w2 : world) :
  fst (do_something s w1) = fst (do_something s w2) /\
  exists evs,
    trace (snd (do_something s w1)) = trace w1 ++ evs /\
    trace (snd (do_something s w2)) = trace w2 ++ evs.
Proof.
  unfold do_something, fstring, format_value, bind, print, time_sleep, ret, raise.
  destruct (str_allowed s); [| split; [reflexivity |]; exists [];
                                simpl; rewrite !app_nil_r; split; reflexivity].
  destruct (sleep_error s); simpl; (split; [reflexivity |]).
  - eexists. split; reflexivity.
  - eexists. rewrite <- !app_assoc. split; reflexivity.
Qed.

(** What a child does with [do_something] does not depend on the world of
    its parent. *)
Lemma in_child_do_something (s : pyval) (w : world) :
  in_child (do_something s) w =
    (task_trace (task_of s), task_outcome (task_of s)).
Proof.
  unfold task_of, in_child.
  change (cpu_count (init_world 0 [])) with 0.
  destruct (do_something_trace_only s (init_world (cpu_count w) []) (init_world 0 []))
    as (Hr & evs & T1 & T2).
  destruct (do_something s (init_world (cpu_count w) [])) as [r1 w1].
  destruct (do_something s (init_world 0 [])) as [r2 w2].
  simpl in *. congruence.
Qed.

Lemma task_of_valid (s : pyval) :
  valid_duration s = true ->
  task_outcome (task_of s) = Returns (done_message s).
Proof.
  intros Hv. unfold task_of, in_child.
  rewrite do_something_valid by assumption. reflexivity.
Qed.


Lemma task_of_never_hangs (s : pyval) :
  task_outcome (task_of s) <> Hangs.
Proof.
  unfold task_of, in_child.
  change (cpu_count (init_world 0 [])) with 0.
  pose proof (do_something_never_hangs s (init_world 0 [])) as H.
  destruct (do_something s (init_world 0 [])) as [r w']. exact H.
Qed.

(** *** Scheduling steps *)

Lemma evolves_refl (p : pool) : evolves p p.
Proof. repeat split; auto. Qed.

Lemma evolves_trans (p1 p2 p3 : pool) :
  evolves p1 p2 -> evolves p2 p3 -> evolves p1 p3.
Proof.
  intros (F1 & P1 & M1) (F2 & P2 & M2). repeat split.
  - congruence.
  - eapply Permutation_trans; eassumption.
  - auto.
Qed.

Lemma evolves_wf (p p' : pool) : evolves p p' -> pool_wf p -> pool_wf p'.
Proof.
  intros (F & P & _) (Hp & Hf). unfold pool_wf. rewrite F. split.
  - eapply Permutation_trans; eassumption.
  - assumption.
Qed.

Lemma remove_nth_perm {A : Type} (l : list A) (k : nat) (d : A) :
  k < length l -> Permutation (remove_nth k l ++ [nth k l d]) l.
Proof.
  revert k. induction l as [| a l IH]; intros k Hk; simpl in Hk.
  - lia.
  - destruct k as [| k].
    + unfold remove_nth. simpl. apply Permutation_sym, Permutation_cons_append.
    + unfold remove_nth in *. simpl. apply perm_skip. apply IH. lia.
Qed.

Lemma remove_nth_length {A : Type} (l : list A) (k : nat) :
  k < length l -> length (remove_nth k l) = pred (length l).
Proof.
  revert k. induction l as [| a l IH]; intros k Hk; simpl in Hk.
  - lia.
  - destruct k as [| k]; unfold remove_nth in *; simpl.
    + reflexivity.
    + rewrite IH by lia. lia.
Qed.

Lemma complete_one_trace (w : world) : trace (complete_one w) = trace w.
Proof. unfold complete_one. destruct (running (ppe w)); reflexivity. Qed.

Lemma pick_in_range (c n : nat) : Nat.modulo c (S n) < S n.
Proof. apply Nat.mod_upper_bound. discriminate. Qed.

Lemma move_perm {A : Type} (R F : list A) (k : nat) (d : A) :
  k < length R ->
  Permutation (remove_nth k R ++ F ++ [nth k R d]) (R ++ F).
Proof.
  intros Hk.
  apply Permutation_trans with ((remove_nth k R ++ [nth k R d]) ++ F).
  - rewrite <- app_assoc. apply Permutation_app_head, Permutation_app_comm.
  - apply Permutation_app_tail, remove_nth_perm, Hk.
Qed.

Lemma complete_one_evolves (w : world) : evolves (ppe w) (ppe (complete_one w)).
Proof.
  unfold complete_one. destruct (running (ppe w)) as [| h0 rest] eqn:Hr.
  - apply evolves_refl.
  - cbn -[Nat.modulo remove_nth nth app]. repeat split.
    + rewrite Hr. apply move_perm, pick_in_range.
    + intros h Hh. apply in_or_app. left. exact Hh.
Qed.

Lemma complete_one_running (w : world) :
  length (running (ppe (complete_one w))) = pred (length (running (ppe w))).
Proof.
  unfold complete_one. destruct (running (ppe w)) as [| h0 rest] eqn:Hr.
  - rewrite Hr. reflexivity.
  - cbn -[Nat.modulo remove_nth nth app].
    rewrite remove_nth_length by apply pick_in_range. reflexivity.
Qed.

Lemma is_finished_In (h : handle) (w : world) :
  is_finished h w = true <-> In h (finished (ppe w)).
Proof.
  unfold is_finished. rewrite existsb_exists. split.
  - intros (x & Hx & E). apply Nat.eqb_eq in E. subst. exact Hx.
  - intros H. exists h. split; [exact H | apply Nat.eqb_refl].
Qed.

(** *** Blocking on futures *)

Local Ltac split3 := split; [| split].

Lemma wait_loop_spec (fuel : nat) (h : handle) (w : world) :
  length (running (ppe w)) <= fuel ->
  In h (running (ppe w) ++ finished (ppe w)) ->
  is_finished h (wait_loop fuel h w) = true /\
  evolves (ppe w) (ppe (wait_loop fuel h w)) /\
  trace (wait_loop fuel h w) = trace w.
Proof.
  revert w. induction fuel as [| fuel IH]; intros w Hlen Hin; simpl.
  - split3; [| apply evolves_refl | reflexivity].
    apply is_finished_In.
    destruct (running (ppe w)); [exact Hin | simpl in Hlen; lia].
  - destruct (is_finished h w) eqn:Hf.
    + split3; [exact Hf | apply evolves_refl | reflexivity].
    + pose proof (complete_one_evolves w) as Hev.
      destruct (IH (complete_one w)) as (H1 & H2 & H3).
      * rewrite complete_one_running. lia.
      * destruct Hev as (_ & Hp & _).
        eapply Permutation_in; [apply Permutation_sym, Hp | exact Hin].
      * split3; [exact H1 | | ].
        -- eapply evolves_trans; eassumption.
        -- rewrite H3. apply complete_one_trace.
Qed.

Lemma handle_in_pool (p : pool) (h : handle) :
  pool_wf p -> h < length (futures p) -> In h (running p ++ finished p).
Proof.
  intros (Hp & _) Hh.
  eapply Permutation_in; [apply Permutation_sym, Hp |].
  apply in_seq. lia.
Qed.

(** Retrieving the result of a future of the pool never hangs: it gives
    what the task did, and leaves every future in the pool. *)
Lemma result_spec (h : handle) (t : task) (w : world) :
  pool_wf (ppe w) ->
  nth_error (futures (ppe w)) h = Some t ->
  exists w',
    result h w = (task_outcome t, w') /\
    evolves (ppe w) (ppe w') /\
    trace w' = trace w.
Proof.
  intros Hwf Hn.
  assert (Hh : h < length (futures (ppe w))).
  { apply nth_error_Some. congruence. }
  destruct (wait_loop_spec (length (running (ppe w))) h w (le_n _)
              (handle_in_pool _ _ Hwf Hh)) as (H1 & H2 & H3).
  exists (wait_for h w). unfold result, wait_for.
  rewrite H1. pose proof H2 as (F & _ & _). rewrite F, Hn.
  split3; [reflexivity | exact H2 | exact H3].
Qed.

Lemma next_completed_spec (fuel : nat) (todo : list handle) (w : world) :
  length (running (ppe w)) <= fuel ->
  todo <> [] ->
  (forall h, In h todo -> In h (running (ppe w) ++ finished (ppe w))) ->
  exists h w',
    next_completed fuel todo w = (Some h, w') /\
    In h todo /\
    evolves (ppe w) (ppe w') /\
    trace w' = trace w.
Proof.
  revert w. induction fuel as [| fuel IH]; intros w Hlen Hne Hin.
  - simpl.
    destruct (find (fun h => existsb (Nat.eqb h) todo) (finished (ppe w)))
      as [h |] eqn:Hf.
    + apply find_some in Hf. destruct Hf as [_ Hf].
      apply existsb_exists in Hf. destruct Hf as (x & Hx & E).
      apply Nat.eqb_eq in E. subst x.
      exists h, w.
      split; [reflexivity |]. split3; [exact Hx | apply evolves_refl | reflexivity].
    + exfalso. destruct todo as [| h0 todo']; [congruence |].
      assert (H0 : In h0 (finished (ppe w))).
      { specialize (Hin h0 (or_introl eq_refl)).
        destruct (running (ppe w)); [exact Hin | simpl in Hlen; lia]. }
      pose proof (find_none _ _ Hf h0 H0) as Hx. simpl in Hx.
      rewrite Nat.eqb_refl in Hx. discriminate.
  - simpl.
    destruct (find (fun h => existsb (Nat.eqb h) todo) (finished (ppe w)))
      as [h |] eqn:Hf.
    + apply find_some in Hf. destruct Hf as [_ Hf].
      apply existsb_exists in Hf. destruct Hf as (x & Hx & E).
      apply Nat.eqb_eq in E. subst x.
      exists h, w.
      split; [reflexivity |]. split3; [exact Hx | apply evolves_refl | reflexivity].
    + pose proof (complete_one_evolves w) as Hev.
      destruct (IH (complete_one w)) as (h & w' & E & Hh & Hev' & Ht).
      * rewrite complete_one_running. lia.
      * exact Hne.
      * intros h Hh. destruct Hev as (_ & Hp & _).
        eapply Permutation_in; [apply Permutation_sym, Hp | apply Hin, Hh].
      * exists h, w'. split; [exact E |]. split3; [exact Hh | | ].
        -- eapply evolves_trans; eassumption.
        -- rewrite Ht. apply complete_one_trace.
Qed.

Lemma drain_spec (fuel : nat) (w : world) :
  length (running (ppe w)) <= fuel ->
  running (ppe (drain fuel w)) = [] /\
  evolves (ppe w) (ppe (drain fuel w)) /\
  trace (drain fuel w) = trace w.
Proof.
  revert w. induction fuel as [| fuel IH]; intros w Hlen; simpl.
  - split3; [| apply evolves_refl | reflexivity].
    destruct (running (ppe w)); [reflexivity | simpl in Hlen; lia].
  - destruct (IH (complete_one w)) as (H1 & H2 & H3).
    + rewrite complete_one_running. lia.
    + split3; [exact H1 | | ].
      * eapply evolves_trans; [apply complete_one_evolves | exact H2].
      * rewrite H3. apply complete_one_trace.
Qed.

(** *** The two ways of collecting results *)

Lemma bind_eq {A B : Type} (c : M A) (k : A -> M B) (w : world) :
  bind c k w =
    match c w with
    | (Returns a, w') => k a w'
    | (Raises e, w') => (Raises e, w')
    | (Hangs, w') => (Hangs, w')
    end.
Proof. reflexivity. Qed.

Lemma result_then_print_retrieves :
  retrieves (fun process => r <- result process ;; print r).
Proof.
  intros h t w Hwf Hn.
  destruct (result_spec h t w Hwf Hn) as (w1 & E & Hev & Ht).
  rewrite bind_eq, E. unfold step_outcome, step_lines.
  destruct (task_outcome t) as [s | e |].
  - eexists. split3; [reflexivity | simpl; rewrite Ht; reflexivity | exact Hev].
  - exists w1. split3; [reflexivity | rewrite app_nil_r; exact Ht | exact Hev].
  - exists w1. split3; [reflexivity | rewrite app_nil_r; exact Ht | exact Hev].
Qed.

Lemma task_at (p : pool) (h : handle) :
  pool_wf p -> h < length (futures p) ->
  exists t, nth_error (futures p) h = Some t /\ task_outcome t <> Hangs.
Proof.
  intros (_ & Hf) Hh.
  destruct (nth_error (futures p) h) as [t |] eqn:Hn.
  - exists t. split; [reflexivity |].
    rewrite Forall_forall in Hf. apply Hf. eapply nth_error_In, Hn.
  - apply nth_error_None in Hn. lia.
Qed.

Lemma collect_cons (fs : list task) (h : handle) (hs : list handle) (t : task) :
  nth_error fs h = Some t ->
  collect fs (h :: hs) =
    match task_outcome t with
    | Returns s => (s :: fst (collect fs hs), snd (collect fs hs))
    | Raises e => ([], Raises e)
    | Hangs => ([], Hangs)
    end.
Proof.
  intros Hn. simpl. rewrite Hn.
  destruct (task_outcome t); [| reflexivity | reflexivity].
  destruct (collect fs hs). reflexivity.
Qed.

(** Retrieving in a given order prints the results in that order, up to
    the first failure, and never hangs. *)
Lemma for_each_collect (body : handle -> M unit) (hs : list handle) (w : world) :
  retrieves body ->
  pool_wf (ppe w) ->
  (forall h, In h hs -> h < length (futures (ppe w))) ->
  exists w',
    for_each hs body w = (snd (collect (futures (ppe w)) hs), w') /\
    trace w' = trace w ++ map EPrint (fst (collect (futures (ppe w)) hs)) /\
    evolves (ppe w) (ppe w') /\
    snd (collect (futures (ppe w)) hs) <> Hangs.
Proof.
  intros Hbody. revert w. induction hs as [| h hs IH]; intros w Hwf Hhs.
  - exists w. simpl. rewrite app_nil_r.
    split; [reflexivity |]. split3; [reflexivity | apply evolves_refl | discriminate].
  - destruct (task_at (ppe w) h Hwf (Hhs h (or_introl eq_refl))) as (t & Hn & Hnh).
    destruct (Hbody h t w Hwf Hn) as (w1 & E & Ht & Hev).
    pose proof Hev as (F & _ & _).
    cbn [for_each]. rewrite bind_eq, E.
    rewrite (collect_cons _ h hs t Hn).
    unfold step_outcome, step_lines in *.
    destruct (task_outcome t) as [s | e |].
    + destruct (IH w1) as (w' & E' & Ht' & Hev' & Hnh').
      * eapply evolves_wf; eassumption.
      * intros x Hx. rewrite F. apply Hhs. right. exact Hx.
      * rewrite F in *. exists w'. split; [exact E' |]. split3.
        -- rewrite Ht', Ht, <- app_assoc. reflexivity.
        -- eapply evolves_trans; eassumption.
        -- exact Hnh'.
    + exists w1. split; [reflexivity |]. split3; [exact Ht | exact Hev | discriminate].
    + congruence.
Qed.

Lemma NoDup_remove_eq (h : handle) (l : list handle) :
  NoDup l -> NoDup (remove Nat.eq_dec h l).
Proof.
  induction 1 as [| x l Hx Hl IH]; simpl.
  - constructor.
  - destruct (Nat.eq_dec h x); [exact IH |].
    constructor; [| exact IH].
    intros Hin. apply in_remove in Hin. tauto.
Qed.

Lemma perm_remove (h : handle) (l : list handle) :
  NoDup l -> In h l -> Permutation (h :: remove Nat.eq_dec h l) l.
Proof.
  induction 1 as [| x l Hx Hl IH]; intros Hin; simpl.
  - contradiction.
  - destruct (Nat.eq_dec h x) as [-> | Hne].
    + rewrite notin_remove by exact Hx. reflexivity.
    + destruct Hin as [-> | Hin]; [congruence |].
      eapply Permutation_trans; [apply perm_swap |].
      apply perm_skip, IH, Hin.
Qed.

Lemma as_completed_loop_nil (n : nat) (body : handle -> M unit) (w : world) :
  as_completed_loop n [] body w = (Returns tt, w).
Proof. destruct n; reflexivity. Qed.

Lemma as_completed_loop_step (n : nat) (todo : list handle)
      (body : handle -> M unit) (w : world) :
  todo <> [] ->
  as_completed_loop (S n) todo body w =
    match next_completed (length (running (ppe w))) todo w with
    | (Some h, w') =>
        (body h ;; as_completed_loop n (remove Nat.eq_dec h todo) body) w'
    | (None, w') => (Hangs, w')
    end.
Proof. destruct todo; [congruence | reflexivity]. Qed.

(** Retrieving as the work completes prints the results of the futures in
    some order, up to the first failure, and never hangs; when no task
    failed, every future was retrieved exactly once. *)
Lemma as_completed_collect (body : handle -> M unit) (n : nat)
      (todo : list handle) (w : world) :
  retrieves body ->
  length todo <= n ->
  NoDup todo ->
  pool_wf (ppe w) ->
  (forall h, In h todo -> h < length (futures (ppe w))) ->
  exists order w',
    as_completed_loop n todo body w = (snd (collect (futures (ppe w)) order), w') /\
    trace w' = trace w ++ map EPrint (fst (collect (futures (ppe w)) order)) /\
    evolves (ppe w) (ppe w') /\
    snd (collect (futures (ppe w)) order) <> Hangs /\
    incl order todo /\
    (snd (collect (futures (ppe w)) order) = Returns tt -> Permutation order todo).
Proof.
  intros Hbody. revert todo w.
  induction n as [| n IH]; intros todo w Hlen Hnd Hwf Htodo.
  - destruct todo; [| simpl in Hlen; lia].
    exists [], w. simpl. rewrite app_nil_r.
    split; [reflexivity |]. split; [reflexivity |].
    split; [apply evolves_refl |]. split; [discriminate |].
    split; [apply incl_refl | intros _; apply perm_nil].
  - destruct todo as [| x todo'] eqn:Etodo.
    { exists [], w. rewrite as_completed_loop_nil. simpl. rewrite app_nil_r.
      split; [reflexivity |]. split; [reflexivity |].
      split; [apply evolves_refl |]. split; [discriminate |].
      split; [apply incl_refl | intros _; apply perm_nil]. }
    rewrite <- Etodo in *. assert (Hne : todo <> []) by (subst; discriminate).
    clear Etodo.
    rewrite as_completed_loop_step by exact Hne.
    destruct (next_completed_spec (length (running (ppe w))) todo w (le_n _) Hne)
      as (h & w0 & E0 & Hh & Hev0 & Ht0).
    { intros y Hy. apply handle_in_pool; auto. }
    rewrite E0. pose proof Hev0 as (F0 & _ & _).
    assert (Hwf0 : pool_wf (ppe w0)) by (eapply evolves_wf; eassumption).
    destruct (task_at (ppe w0) h Hwf0) as (t & Hn & Hnh).
    { rewrite F0. apply Htodo, Hh. }
    destruct (Hbody h t w0 Hwf0 Hn) as (w1 & E & Ht & Hev).
    pose proof Hev as (F & _ & _).
    rewrite bind_eq, E. rewrite F0 in Hn.
    unfold step_outcome, step_lines in *.
    destruct (task_outcome t) as [s | e |] eqn:Ho.
    + destruct (IH (remove Nat.eq_dec h todo) w1)
        as (order & w' & E' & Ht' & Hev' & Hnh' & Hincl & Hperm).
      * pose proof (remove_length_lt Nat.eq_dec todo h Hh).
        unfold handle in *. lia.
      * apply NoDup_remove_eq, Hnd.
      * eapply evolves_wf; eassumption.
      * intros y Hy. apply in_remove in Hy. rewrite F, F0. apply Htodo, Hy.
      * rewrite F, F0 in *.
        exists (h :: order), w'.
        rewrite (collect_cons _ h order t Hn), Ho. simpl fst. simpl snd.
        split; [exact E' |].
        split; [rewrite Ht', Ht, Ht0, <- app_assoc; reflexivity |].
        split; [eapply evolves_trans; [exact Hev0 |];
                eapply evolves_trans; eassumption |].
        split; [exact Hnh' |].
        split.
        -- intros y [<- | Hy]; [exact Hh |].
           apply Hincl in Hy. apply in_remove in Hy. tauto.
        -- intros Hr. specialize (Hperm Hr).
           eapply Permutation_trans; [apply perm_skip, Hperm |].
           apply perm_remove; assumption.
    + exists [h], w1.
      rewrite (collect_cons _ h [] t Hn), Ho. simpl fst. simpl snd.
      split; [reflexivity |].
      split; [rewrite Ht, Ht0; reflexivity |].
      split; [eapply evolves_trans; eassumption |].
      split; [discriminate |].
      split; [intros y [<- | []]; exact Hh | discriminate].
    + congruence.
Qed.

(** *** Submitting and shutting down *)

Lemma task_of_eta (s : pyval) :
  mkTask s (task_trace (task_of s)) (task_outcome (task_of s)) = task_of s.
Proof.
  unfold task_of. destruct (in_child (do_something s) (init_world 0 [])).
  reflexivity.
Qed.

Lemma submit_spec (s : pyval) (w : world) :
  is_shutdown (ppe w) = false ->
  exists w',
    submit do_something s w = (Returns (length (futures (ppe w))), w') /\
    trace w' = trace w /\
    futures (ppe w') = futures (ppe w) ++ [task_of s] /\
    running (ppe w') = running (ppe w) ++ [length (futures (ppe w))] /\
    finished (ppe w') = finished (ppe w) /\
    is_shutdown (ppe w') = false.
Proof.
  intros Hs. unfold submit. rewrite Hs, in_child_do_something, task_of_eta.
  eexists. split; [reflexivity |]. simpl. repeat split; auto.
Qed.

(** Submitting never raises, whatever the tasks will do: each future is
    queued, in order. *)
Lemma submit_all_spec (l : list pyval) (w : world) :
  is_shutdown (ppe w) = false ->
  exists w',
    list_comp (submit do_something) l w =
      (Returns (seq (length (futures (ppe w))) (length l)), w') /\
    trace w' = trace w /\
    futures (ppe w') = futures (ppe w) ++ map task_of l /\
    running (ppe w') =
      running (ppe w) ++ seq (length (futures (ppe w))) (length l) /\
    finished (ppe w') = finished (ppe w) /\
    is_shutdown (ppe w') = false.
Proof.
  revert w. induction l as [| a l IH]; intros w Hs.
  - exists w. simpl. rewrite !app_nil_r. repeat split; auto.
  - destruct (submit_spec a w Hs) as (w1 & E1 & T1 & F1 & R1 & D1 & S1).
    destruct (IH w1 S1) as (w2 & E2 & T2 & F2 & R2 & D2 & S2).
    exists w2. cbn [list_comp]. rewrite bind_eq, E1, bind_eq, E2.
    rewrite F1, length_app, Nat.add_1_r in *. simpl length in *.
    split; [reflexivity |].
    split; [congruence |].
    split; [rewrite F2, <- app_assoc; reflexivity |].
    split; [rewrite R2, R1, <- app_assoc; reflexivity |].
    split; [congruence | exact S2].
Qed.

(** The start of a session on a new pool: one future per workload, all
    running. *)
Lemma session_start (l : list pyval) (w : world) :
  exists w1,
    list_comp (submit do_something) l
      (set_ppe (empty_pool (Nat.max 1 (cpu_count w))) w) =
      (Returns (seq 0 (length l)), w1) /\
    trace w1 = trace w /\
    futures (ppe w1) = map task_of l /\
    pool_wf (ppe w1).
Proof.
  destruct (submit_all_spec l (set_ppe (empty_pool (Nat.max 1 (cpu_count w))) w)
              eq_refl) as (w1 & E & T & F & R & D & S).
  simpl in *. exists w1.
  split; [exact E |]. split; [exact T |]. split; [exact F |].
  unfold pool_wf. rewrite R, D, F, app_nil_r, length_map. split.
  - reflexivity.
  - apply Forall_forall. intros t Ht. apply in_map_iff in Ht.
    destruct Ht as (s & <- & _). apply task_of_never_hangs.
Qed.

Lemma shutdown_spec (w : world) :
  pool_wf (ppe w) ->
  exists w',
    shutdown w = (Returns tt, w') /\
    trace w' = trace w /\
    futures (ppe w') = futures (ppe w) /\
    pool_closed (ppe w').
Proof.
  intros Hwf.
  destruct (drain_spec (length (running (ppe w))) w (le_n _)) as (Hr & Hev & Ht).
  pose proof (evolves_wf _ _ Hev Hwf) as (Hp & _).
  pose proof Hev as (F & _ & _).
  eexists. split; [reflexivity |]. simpl.
  split; [exact Ht |]. split; [exact F |].
  unfold pool_closed. simpl. rewrite Hr in *.
  split; [reflexivity |]. split; [reflexivity |]. split; [exact Hp |].
  apply Forall_forall. intros x Hx. apply in_map_iff in Hx.
  destruct Hx as (y & <- & _). reflexivity.
Qed.

(** Leaving a [with] block closes the pool, whether the block returned or
    raised. *)
Lemma with_executor_spec {A : Type} (body : M A) (w : world)
      (r : outcome A) (w1 : world) :
  body (set_ppe (empty_pool (Nat.max 1 (cpu_count w))) w) = (r, w1) ->
  r <> Hangs ->
  pool_wf (ppe w1) ->
  exists w',
    with_executor body w = (r, w') /\
    trace w' = trace w1 /\
    futures (ppe w') = futures (ppe w1) /\
    pool_closed (ppe w').
Proof.
  intros Hb Hr Hwf.
  destruct (shutdown_spec w1 Hwf) as (w' & E & T & F & C).
  exists w'. unfold with_executor, ProcessPoolExecutor. rewrite Hb.
  destruct r; [| | congruence]; rewrite E; auto.
Qed.

(** *** The pool sessions *)

Lemma printed_app (t1 t2 : list event) :
  printed (t1 ++ t2) = printed t1 ++ printed t2.
Proof.
  induction t1 as [| [line | secs] t1 IH]; simpl; [reflexivity | |];
    rewrite IH; reflexivity.
Qed.


(** What [multi_pool_map_on] does on any workloads, from any world. *)
Lemma multi_pool_map_on_spec (l : list pyval) (w : world) :
  exists w',
    multi_pool_map_on l w =
      (snd (collect (map task_of l) (seq 0 (length l))), w') /\
    trace w' =
      trace w ++ map EPrint (fst (collect (map task_of l) (seq 0 (length l)))) /\
    futures (ppe w') = map task_of l /\
    pool_closed (ppe w').
Proof.
  destruct (session_start l w) as (w1 & E1 & T1 & F1 & Wf1).
  destruct (for_each_collect (fun h => r <- result h ;; print r)
              (seq 0 (length l)) w1 result_then_print_retrieves Wf1)
    as (w2 & E2 & T2 & Ev2 & Nh2).
  { intros h Hh. rewrite F1, length_map. apply in_seq in Hh. lia. }
  rewrite F1 in *.
  destruct (with_executor_spec
              (futures <- executor_map do_something l ;;
               for_results futures (fun future => print future))
              w (snd (collect (map task_of l) (seq 0 (length l)))) w2)
    as (w' & E & T & F & C).
  - unfold executor_map, for_results. rewrite bind_eq, E1. exact E2.
  - exact Nh2.
  - eapply evolves_wf; eassumption.
  - exists w'. split; [exact E |].
    split; [rewrite T, T2, T1; reflexivity |].
    split; [| exact C].
    destruct Ev2 as (F2 & _ & _). congruence.
Qed.

(** What [multi_pool_loop_on] does on any workloads, from any world: it
    retrieves the futures in some order [order]. *)
Lemma multi_pool_loop_on_spec (l : list pyval) (w : world) :
  exists order w',
    multi_pool_loop_on l w = (snd (collect (map task_of l) order), w') /\
    trace w' = trace w ++ map EPrint (fst (collect (map task_of l) order)) /\
    futures (ppe w') = map task_of l /\
    pool_closed (ppe w') /\
    incl order (seq 0 (length l)) /\
    (snd (collect (map task_of l) order) = Returns tt ->
     Permutation order (seq 0 (length l))).
Proof.
  destruct (session_start l w) as (w1 & E1 & T1 & F1 & Wf1).
  destruct (as_completed_collect (fun process => r <- result process ;; print r)
              (length (seq 0 (length l))) (seq 0 (length l)) w1
              result_then_print_retrieves (le_n _) (seq_NoDup _ _) Wf1)
    as (order & w2 & E2 & T2 & Ev2 & Nh2 & I2 & P2).
  { intros h Hh. rewrite F1, length_map. apply in_seq in Hh. lia. }
  rewrite F1 in *.
  destruct (with_executor_spec
              (processes <- list_comp (submit do_something) l ;;
               for_as_completed processes (fun process =>
                 r <- result process ;; print r))
              w (snd (collect (map task_of l) order)) w2)
    as (w' & E & T & F & C).
  - unfold for_as_completed. rewrite bind_eq, E1. exact E2.
  - exact Nh2.
  - eapply evolves_wf; eassumption.
  - exists order, w'. split; [exact E |].
    split; [rewrite T, T2, T1; reflexivity |].
    split; [destruct Ev2 as (F2 & _ & _); congruence |].
    split; [exact C |]. split; assumption.
Qed.





Lemma multi_pool_spec (w : world) :
  exists w',
    multi_pool w = (Returns tt, w') /\
    stdout w' =
      stdout w ++ [done_message (PyFloat 1.5%float); done_message (PyFloat 1.5%float)] /\
    pool_closed (ppe w').
Proof.
  set (w0 := set_ppe (empty_pool (Nat.max 1 (cpu_count w))) w).
  destruct (submit_spec (PyFloat 1.5%float) w0 eq_refl)
    as (w1 & E1 & T1 & F1 & R1 & D1 & S1).
  destruct (submit_spec (PyFloat 1.5%float) w1 S1)
    as (w2 & E2 & T2 & F2 & R2 & D2 & S2).
  rewrite F1 in *. simpl in F1, R1, D1, E1, E2, F2, R2.
  assert (Wf2 : pool_wf (ppe w2)).
  { unfold pool_wf. rewrite F2, R2, D2, D1, R1. simpl. split; [reflexivity |].
    repeat constructor; apply task_of_never_hangs. }
  destruct (result_spec 0 (task_of (PyFloat 1.5%float)) w2 Wf2)
    as (w3 & E3 & Ev3 & T3).
  { rewrite F2. reflexivity. }
  assert (Wf3 : pool_wf (ppe w3)) by (eapply evolves_wf; eassumption).
  pose proof Ev3 as (F3 & _ & _).
  destruct (result_spec 1 (task_of (PyFloat 1.5%float))
              (set_trace (trace w3 ++ [EPrint (done_message (PyFloat 1.5%float))]) w3)
              Wf3)
    as (w4 & E4 & Ev4 & T4).
  { simpl. rewrite F3, F2. reflexivity. }
  rewrite (task_of_valid (PyFloat 1.5%float) eq_refl) in E3, E4.
  destruct (with_executor_spec
              (process_1 <- submit do_something (PyFloat 1.5%float) ;;
               process_2 <- submit do_something (PyFloat 1.5%float) ;;
               r1 <- result process_1 ;;
               print r1 ;;
               r2 <- result process_2 ;;
               print r2)
              w (Returns tt)
              (set_trace (trace w4 ++ [EPrint (done_message (PyFloat 1.5%float))]) w4))
    as (w' & E & T & F & C).
  - fold w0. rewrite bind_eq, E1, bind_eq, E2, bind_eq, E3.
    rewrite bind_eq. unfold print at 1. rewrite bind_eq, E4. reflexivity.
  - discriminate.
  - simpl. eapply evolves_wf; eassumption.
  - exists w'. split; [exact E |]. split; [| exact C].
    unfold stdout. rewrite T. simpl. rewrite T4. simpl.
    rewrite T3, T2, T1. unfold w0. simpl.
    rewrite <- app_assoc, printed_app. reflexivity.
Qed.



(** ** The claims *)






(** C6: every pool session ends, by returning or by raising, with its
    pool closed: shut down, no work left running, all submitted work
    finished, every worker process joined.  This holds for any workloads,
    so also when a worker's exception goes through the session, as it
    does for the workload -1.  [multi_loop], which has no pool, returns
    with each of its ten processes joined. *)
Theorem pool_closed_on_every_exit_path
        (l : list pyval) (w : world) (cpus : nat) (o : list nat) :
  (fst (multi_pool w) <> Hangs /\ pool_closed (ppe (snd (multi_pool w)))) /\
  (fst (multi_pool_loop_on l w) <> Hangs /\
   pool_closed (ppe (snd (multi_pool_loop_on l w)))) /\
  (fst (multi_pool_map_on l w) <> Hangs /\
   pool_closed (ppe (snd (multi_pool_map_on l w)))) /\
  (exists e,
     fst (multi_pool_loop_on [PyInt (-1)] w) = Raises e /\
     fst (multi_pool_map_on [PyInt (-1)] w) = Raises e) /\
  (fst (multi_loop (init_world cpus o)) = Returns tt /\
   map p_status (procs (snd (multi_loop (init_world cpus o)))) = repeat Joined 10).
Proof.
  split; [| split; [| split; [| split]]].
  - destruct (multi_pool_spec w) as (w' & E & _ & C).
    rewrite E. split; [discriminate | exact C].
  - destruct (multi_pool_loop_on_spec l w) as (order & w' & E & T & F & C & I & P).
    destruct (session_start l w) as (w1 & _ & _ & F1 & Wf1).
    rewrite E. split; [| exact C].
    simpl. clear E.
    assert (Hnh : forall hs, incl hs (seq 0 (length l)) ->
                             snd (collect (map task_of l) hs) <> Hangs).
    { induction hs as [| h hs IH]; intros Hin; [discriminate |].
      assert (Hh : h < length l).
      { specialize (Hin h (or_introl eq_refl)). apply in_seq in Hin. lia. }
      rewrite (collect_cons _ h hs (task_of (nth h l seconds_default)))
        by (apply map_nth_error, nth_error_nth', Hh).
      pose proof (task_of_never_hangs (nth h l seconds_default)) as Hn.
      destruct (task_outcome (task_of (nth h l seconds_default)));
        [| discriminate | congruence].
      simpl. apply IH. intros x Hx. apply Hin. right. exact Hx. }
    apply Hnh, I.
  - destruct (multi_pool_map_on_spec l w) as (w' & E & T & F & C).
    destruct (session_start l w) as (w1 & _ & _ & F1 & Wf1).
    destruct (for_each_collect (fun h => r <- result h ;; print r)
                (seq 0 (length l)) w1 result_then_print_retrieves Wf1)
      as (_ & _ & _ & _ & Nh).
    { intros h Hh. rewrite F1, length_map. apply in_seq in Hh. lia. }
    rewrite E. rewrite F1 in Nh. split; [exact Nh | exact C].
  - exists (ValueError "sleep length must be non-negative").
    destruct (multi_pool_loop_on_spec [PyInt (-1)] w)
      as (order & w' & E & _ & _ & _ & I & P).
    destruct (multi_pool_map_on_spec [PyInt (-1)] w) as (w'' & E' & _).
    rewrite E, E'. split; [| reflexivity].
    destruct order as [| h order].
    + specialize (P eq_refl). apply Permutation_nil in P. discriminate P.
    + specialize (I h (or_introl eq_refl)). simpl in I.
      destruct I as [<- | []]. reflexivity.
  - split; reflexivity.
Qed.

(** C7: shutting a pool down twice leaves the world exactly as shutting
    it down once does. *)
Theorem shutdown_idempotent (w : world) :
  (shutdown ;; shutdown) w = shutdown w.
Proof.
  destruct (drain_spec (length (running (ppe w))) w (le_n _)) as (Hr & _ & _).
  rewrite bind_eq. unfold shutdown.
  destruct (drain (length (running (ppe w))) w) as [t ps [mw fs rn fin ws sd] c oc].
  simpl in Hr. subst rn. simpl. rewrite map_map. reflexivity.
Qed.

(** C9: called with no argument, [do_something] uses the default
    duration 1 and returns "Done sleeping 1 seconds."; [standard_calls]
    sleeps twice for 1 second, and each of the two processes of [multi]
    sleeps for 1 second. *)
Theorem default_duration_is_one (w : world) (cpus : nat) (o : list nat) :
  call_do_something [] w = do_something (PyInt 1) w /\
  fst (call_do_something [] w) = Returns "Done sleeping 1 seconds." /\
  trace (snd (standard_calls w)) =
    trace w ++ [EPrint "Sleeping 1 seconds..."; ESleep (PyInt 1);
                EPrint "Sleeping 1 seconds..."; ESleep (PyInt 1)] /\
  fst (multi (init_world cpus o)) = Returns tt /\
  procs (snd (multi (init_world cpus o))) =
    [mkProcess [] Joined [EPrint "Sleeping 1 seconds..."; ESleep (PyInt 1)] (Some 0%Z);
     mkProcess [] Joined [EPrint "Sleeping 1 seconds..."; ESleep (PyInt 1)] (Some 0%Z)].
Proof.
  split; [reflexivity |]. split; [reflexivity |].
  split; [| split; reflexivity].
  unfold standard_calls, call_do_something.
  rewrite bind_eq, (do_something_valid seconds_default w eq_refl).
  rewrite bind_eq, (do_something_valid seconds_default _ eq_refl).
  cbn [ret snd trace set_trace]. rewrite <- app_assoc. reflexivity.
Qed.

(** C10: each of the ten processes of [multi_loop] gets the argument
    tuple (1.5,) and sleeps 1.5 seconds; the local tuple [seconds] plays
    no part: whatever it holds, [multi_loop] is the same computation. *)
Theorem multi_loop_all_one_and_a_half (cpus : nat) (o : list nat) :
  map p_args (procs (snd (multi_loop (init_world cpus o)))) =
    repeat [PyFloat 1.5%float] 10 /\
  map p_trace (procs (snd (multi_loop (init_world cpus o)))) =
    repeat [EPrint ("Sleeping " ++ float_repr 1.5%float ++ " seconds...")%string;
            ESleep (PyFloat 1.5%float)] 10 /\
  (forall seconds : list pyval, multi_loop_with seconds = multi_loop).
Proof.
  split; [reflexivity |]. split; reflexivity.
Qed.

(** ** Further properties of the script *)

(** *** The worker task *)


Lemma task_of_worker_trace (s : pyval) :
  valid_duration s = true ->
  task_of s = mkTask s (worker_trace s) (Returns (done_message s)).
Proof.
  intros Hv. unfold task_of, in_child.
  change (cpu_count (init_world 0 [])) with 0.
  rewrite do_something_valid by exact Hv. reflexivity.
Qed.

(** *** Sessions on any workloads *)







(** X5: on an empty list of workloads both sessions do the same: they
    print nothing, return normally and leave a closed pool that never had
    a future or a worker. *)
Theorem empty_batch_sessions (w : world) :
  multi_pool_loop_on [] w = multi_pool_map_on [] w /\
  fst (multi_pool_map_on [] w) = Returns tt /\
  trace (snd (multi_pool_map_on [] w)) = trace w /\
  futures (ppe (snd (multi_pool_map_on [] w))) = [] /\
  workers (ppe (snd (multi_pool_map_on [] w))) = [] /\
  pool_closed (ppe (snd (multi_pool_map_on [] w))).
Proof.
  split; [reflexivity |]. split; [reflexivity |]. split; [reflexivity |].
  split; [reflexivity |]. split; [reflexivity |].
  unfold pool_closed. cbn.
  split; [reflexivity |]. split; [reflexivity |].
  split; [apply perm_nil | constructor].
Qed.

(** X6: [multi_pool] returns normally and adds to the output the two
    results "Done sleeping 1.5 seconds.", from any world and under every
    scheduling of its two tasks. *)
Theorem multi_pool_prints_both_results (w : world) :
  fst (multi_pool w) = Returns tt /\
  stdout (snd (multi_pool w)) =
    stdout w ++ [("Done sleeping " ++ float_repr 1.5%float ++ " seconds.")%string;
                 ("Done sleeping " ++ float_repr 1.5%float ++ " seconds.")%string].
Proof.
  destruct (multi_pool_spec w) as (w' & E & T & _).
  rewrite E. split; [reflexivity | exact T].
Qed.


(** *** Processes *)

Lemma nth_error_mid {A : Type} (pre rest : list A) (x : A) :
  nth_error (pre ++ x :: rest) (length pre) = Some x.
Proof.
  rewrite nth_error_app2 by apply le_n. rewrite Nat.sub_diag. reflexivity.
Qed.

Lemma replace_nth_mid {A : Type} (pre rest : list A) (x y : A) :
  replace_nth (length pre) y (pre ++ x :: rest) = pre ++ y :: rest.
Proof. induction pre as [| a pre IH]; simpl; [| rewrite IH]; reflexivity. Qed.

(** Starting the process that stands after [pre] in the table runs its
    child and touches no other process. *)
Lemma start_spec (pre rest : list process) (p : process) (w : world) :
  procs w = pre ++ p :: rest ->
  p_status p = Initial ->
  start (length pre) w =
    (Returns tt,
     set_procs (pre ++ mkProcess (p_args p) Started
                         (fst (in_child (call_do_something (p_args p)) w))
                         (Some (exit_code (snd (in_child (call_do_something (p_args p)) w))))
                    :: rest) w).
Proof.
  intros Hp Hs. unfold start. rewrite Hp, nth_error_mid, Hs.
  destruct (in_child (call_do_something (p_args p)) w) as [t r].
  rewrite replace_nth_mid. reflexivity.
Qed.

Lemma join_spec (pre rest : list process) (p : process) (w : world) :
  procs w = pre ++ p :: rest ->
  p_status p = Started ->
  join (length pre) w =
    (Returns tt,
     set_procs (pre ++ mkProcess (p_args p) Joined (p_trace p) (p_exitcode p)
                    :: rest) w).
Proof.
  intros Hp Hs. unfold join. rewrite Hp, nth_error_mid, Hs.
  rewrite replace_nth_mid. reflexivity.
Qed.

Lemma spawn_loop (n a : nat) (acc : list nat) (w : world) :
  for_fold (seq a n)
    (fun _ processes =>
       p <- Process [PyFloat 1.5%float] ;;
       start p ;;
       ret (processes ++ [p]))
    acc w =
    (Returns (acc ++ seq (length (procs w)) n),
     set_procs (procs w
                ++ repeat (mkProcess [PyFloat 1.5%float] Started
                             (worker_trace (PyFloat 1.5%float)) (Some 0%Z)) n) w).
Proof.
  revert a acc w. induction n as [| n IH]; intros a acc w.
  - simpl. rewrite !app_nil_r. destruct w. reflexivity.
  - cbn [seq for_fold]. rewrite bind_eq, bind_eq. unfold Process at 1.
    rewrite bind_eq.
    rewrite (start_spec (procs w) [] (mkProcess [PyFloat 1.5%float] Initial [] None))
      by reflexivity.
    cbn [p_args call_do_something]. rewrite in_child_do_something.
    rewrite (task_of_worker_trace (PyFloat 1.5%float) eq_refl).
    cbn [fst snd task_trace task_outcome exit_code ret].
    rewrite IH. cbn [procs set_procs].
    rewrite length_app, Nat.add_1_r, <- !app_assoc. reflexivity.
Qed.

Lemma join_loop (n : nat) (pre : list process) (w : world)
      (args : list pyval) (t : list event) (c : option Z) :
  procs w = pre ++ repeat (mkProcess args Started t c) n ->
  for_each (seq (length pre) n) join w =
    (Returns tt, set_procs (pre ++ repeat (mkProcess args Joined t c) n) w).
Proof.
  revert pre w. induction n as [| n IH]; intros pre w Hp.
  - simpl in *. rewrite app_nil_r in *. rewrite <- Hp. destruct w. reflexivity.
  - cbn [seq for_each repeat] in *. rewrite bind_eq.
    rewrite (join_spec pre _ _ w Hp eq_refl). cbn [p_args p_trace p_exitcode].
    replace (S (length pre)) with (length (pre ++ [mkProcess args Joined t c]))
      by (rewrite length_app; simpl; lia).
    rewrite (IH (pre ++ [mkProcess args Joined t c])).
    + cbn [set_procs procs trace ppe cpu_count oracle].
      rewrite <- app_assoc. reflexivity.
    + cbn [set_procs procs]. rewrite <- app_assoc. reflexivity.
Qed.

(** X8: from any world, [multi_loop] returns normally having added ten
    processes to the table, each with the argument 1.5, each run to exit
    code 0 and joined; the processes that were there before, the caller's
    own output, the pool and the oracle are as they were. *)
Theorem multi_loop_joins_what_it_starts (w : world) :
  multi_loop w =
    (Returns tt,
     set_procs (procs w
                ++ repeat (mkProcess [PyFloat 1.5%float] Joined
                             (worker_trace (PyFloat 1.5%float)) (Some 0%Z)) 10) w).
Proof.
  unfold multi_loop, multi_loop_with. rewrite bind_eq, spawn_loop.
  cbn [app].
  rewrite (join_loop 10 (procs w) _ [PyFloat 1.5%float]
             (worker_trace (PyFloat 1.5%float)) (Some 0%Z)) by reflexivity.
  reflexivity.
Qed.

(** X9: from any world, [multi] returns normally having added two
    processes, each of which ran [do_something] with the default duration
    1 to exit code 0 and was joined; nothing else in the world changes. *)
Theorem multi_joins_what_it_starts (w : world) :
  multi w =
    (Returns tt,
     set_procs (procs w
                ++ repeat (mkProcess [] Joined (worker_trace (PyInt 1)) (Some 0%Z)) 2) w).
Proof.
  set (created := mkProcess [] Initial [] None).
  set (started := mkProcess [] Started (worker_trace (PyInt 1)) (Some 0%Z)).
  set (joined := mkProcess [] Joined (worker_trace (PyInt 1)) (Some 0%Z)).
  assert (Hrun : forall w', in_child (call_do_something []) w' =
                            (worker_trace (PyInt 1), Returns (done_message (PyInt 1)))).
  { intros w'. cbn [call_do_something]. rewrite in_child_do_something.
    rewrite (task_of_worker_trace seconds_default eq_refl). reflexivity. }
  assert (Hlen : forall x : process,
             S (length (procs w)) = length (procs w ++ [x])).
  { intros x. rewrite length_app. simpl. lia. }
  unfold multi. rewrite bind_eq. unfold Process at 1.
  rewrite bind_eq. unfold Process at 1. cbn [procs set_procs].
  fold created. rewrite <- (Hlen created).
  rewrite bind_eq.
  rewrite (start_spec (procs w) [created] created)
    by (cbn [procs set_procs]; rewrite <- ?app_assoc; reflexivity).
  cbn [p_args created]. rewrite Hrun. cbn [fst snd exit_code]. fold started.
  rewrite bind_eq, (Hlen started).
  rewrite (start_spec (procs w ++ [started]) [] created)
    by (cbn [procs set_procs]; rewrite <- ?app_assoc; reflexivity).
  cbn [p_args created]. rewrite Hrun. cbn [fst snd exit_code]. fold started.
  rewrite bind_eq.
  rewrite (join_spec (procs w) [started] started)
    by (cbn [procs set_procs]; rewrite <- ?app_assoc; reflexivity).
  cbn [p_args p_trace p_exitcode started]. fold joined.
  rewrite <- (Hlen started), (Hlen joined).
  rewrite (join_spec (procs w ++ [joined]) [] started)
    by (cbn [procs set_procs]; rewrite <- ?app_assoc; reflexivity).
  cbn [p_args p_trace p_exitcode started]. fold joined.
  rewrite <- app_assoc. reflexivity.
Qed.

End Script.

(** ** The script at work *)

(** With three workers and the 1-second task finishing first, then the
    2-second one, as-completed collection prints in the order 1, 2, 3. *)
Example as_completed_shortest_first :
  stdout (snd (multi_pool_loop_on repr_sample three_one_two (init_world 3 [1; 1; 0]))) =
    ["Done sleeping 1 seconds."; "Done sleeping 2 seconds.";
     "Done sleeping 3 seconds."].
Proof. reflexivity. Qed.

(** In the map session of the script the 1-second task, future 9, can
    finish first: it is first in the pool's completion order and last on
    the output. *)
Example one_second_task_finishes_first :
  let w := snd (multi_pool_map repr_sample (init_world 10 [9])) in
  hd_error (finished (ppe w)) = Some 9 /\
  hd_error (stdout w) = Some "Done sleeping 10 seconds." /\
  last (stdout w) "" = "Done sleeping 1 seconds.".
Proof. repeat split. Qed.

Example multi_pool_prints :
  stdout (snd (multi_pool repr_sample (init_world 4 []))) =
    ["Done sleeping 1.5 seconds."; "Done sleeping 1.5 seconds."].
Proof. reflexivity. Qed.

(** A negative length makes the worker raise after its first print. *)
Example do_something_negative :
  do_something repr_sample (PyInt (-1)) (init_world 1 []) =
    (Raises (ValueError "sleep length must be non-negative"),
     set_trace [EPrint "Sleeping -1 seconds..."] (init_world 1 [])).
Proof. reflexivity. Qed.

(** The ends of the range of lengths that [time.sleep] accepts.  The
    float 0x1.12e0be826d695p+33 is the one Python prints as
    9223372036.854776, whose product with 1e9 is 2^63; the float before
    it is the longest sleep in floats. *)
Example sleep_range :
  valid_duration (PyInt 0) = true /\
  valid_duration (PyInt 9223372036) = true /\
  sleep_error (PyInt 9223372037) =
    Some (OverflowError "timestamp too large to convert to C _PyTime_t") /\
  sleep_error (PyInt 10000000000) =
    Some (OverflowError "timestamp too large to convert to C _PyTime_t") /\
  sleep_error (PyInt (-9223372037)) =
    Some (OverflowError "timestamp too large to convert to C _PyTime_t") /\
  sleep_error (PyInt (-9223372036)) =
    Some (ValueError "sleep length must be non-negative") /\
  sleep_error (PyFloat 0x1p1000%float) =
    Some (OverflowError "timestamp too large to convert to C _PyTime_t") /\
  sleep_error (PyFloat infinity) =
    Some (OverflowError "timestamp too large to convert to C _PyTime_t") /\
  sleep_error (PyFloat 0x1.12e0be826d695p+33%float) =
    Some (ValueError "sleep length must be non-negative") /\
  sleep_error (PyFloat (-0.5)%float) =
    Some (ValueError "sleep length must be non-negative") /\
  sleep_error (PyFloat nan) =
    Some (ValueError "Invalid value NaN (not a number)") /\
  valid_duration (PyFloat 0x1.12e0be826d694p+33%float) = true /\
  valid_duration (PyFloat (-0.0)%float) = true.
Proof. repeat split. Qed.

(** A length beyond the clock's range makes the worker raise after its
    first print, like a negative one. *)
Example do_something_too_long :
  do_something repr_sample (PyInt 10000000000) (init_world 1 []) =
    (Raises (OverflowError "timestamp too large to convert to C _PyTime_t"),
     set_trace [EPrint "Sleeping 10000000000 seconds..."] (init_world 1 [])).
Proof. reflexivity. Qed.

(** *** Instances of the claims *)








(** *** Instances of the further properties *)



